(** * Cornucopia: the clothoid segment of [Cornucopia/Clothoid.cpp]

    A shallow embedding of the class [Clothoid]: its six-entry parameter
    vector, the cached canonical transform that [_paramsChanged] rebuilds,
    the evaluator [eval], the re-parametrisations [trim] and [flip], and
    the Jacobian [derivativeAt].

    Numbers.  The class is embedded twice.  In the first and larger part a
    C++ [double] is read as a real number: [+], [-], [*], [fabs], [sqrt],
    [cos] and [sin] are the operations of [R], so rounding, infinities and
    NaN are outside of it.  Division is the one exception: a real quotient
    by zero has no counterpart of what the machine returns, so [/] is an
    operation [fdiv] of which only the quotients by a non-zero divisor are
    known ([fdiv_spec]).  Its theorems are about the expressions the code
    evaluates and the branches it takes.  In the last part (module
    [Double]) a [double] is an IEEE 754 binary64 number with the machine's
    operations; it shows what rounding and NaN make of the position at arc
    length 0.

    Externals.  [fresnel] (Fresnel.h) and [AngleUtils::toRange] are not
    part of the file; they are operations the development is parametrised
    by. *)

From Stdlib Require Import Reals Lra Bool.
From Stdlib Require Floats.

Open Scope R_scope.

(** ** Eigen's [Vector2d] and [Matrix2d] *)

Record Vec : Type := mkVec { vx : R; vy : R }.

(** [_mat << a, b, c, d] fills the matrix row by row. *)
Record Mat : Type := mkMat { m00 : R; m01 : R; m10 : R; m11 : R }.

Definition vzero : Vec := mkVec 0 0.
Definition vadd (a b : Vec) : Vec := mkVec (vx a + vx b) (vy a + vy b).
Definition vsub (a b : Vec) : Vec := mkVec (vx a - vx b) (vy a - vy b).
Definition vscale (k : R) (a : Vec) : Vec := mkVec (k * vx a) (k * vy a).
Definition mulMV (m : Mat) (v : Vec) : Vec :=
  mkVec (m00 m * vx v + m01 m * vy v) (m10 m * vx v + m11 m * vy v).

Definition msub (a b : Mat) : Mat :=
  mkMat (m00 a - m00 b) (m01 a - m01 b) (m10 a - m10 b) (m11 a - m11 b).
Definition mscale (k : R) (a : Mat) : Mat :=
  mkMat (k * m00 a) (k * m01 a) (k * m10 a) (k * m11 a).
(** Column vector times row vector, a 2x2 matrix. *)
Definition outer (c r : Vec) : Mat :=
  mkMat (vx c * vx r) (vx c * vy r) (vy c * vx r) (vy c * vy r).
Definition row0 (m : Mat) : Vec := mkVec (m00 m) (m01 m).
Definition row1 (m : Mat) : Vec := mkVec (m10 m) (m11 m).
Definition transpose (m : Mat) : Mat := mkMat (m00 m) (m10 m) (m01 m) (m11 m).
(** [m.col(0) *= -1] *)
Definition negCol0 (m : Mat) : Mat := mkMat (- m00 m) (m01 m) (- m10 m) (m11 m).
(** [m.col(0) += v] and [m.col(1) += v] *)
Definition addCol0 (m : Mat) (v : Vec) : Mat :=
  mkMat (m00 m + vx v) (m01 m) (m10 m + vy v) (m11 m).
Definition addCol1 (m : Mat) (v : Vec) : Mat :=
  mkMat (m00 m) (m01 m + vx v) (m10 m) (m11 m + vy v).

(** The rotation by [a], and its mirror image used for a decreasing
    curvature. *)
Definition rotation (a : R) : Mat := mkMat (cos a) (- sin a) (sin a) (cos a).
Definition reflection (a : R) : Mat := mkMat (- cos a) (- sin a) (- sin a) (cos a).

(** [x < y] on doubles, as a boolean. *)
Definition Rltb (x y : R) : bool := if Rlt_dec x y then true else false.

Lemma Rltb_true (x y : R) : Rltb x y = true <-> x < y.
Proof. unfold Rltb; destruct (Rlt_dec x y); split; intros; try easy. Qed.

Lemma Rltb_false (x y : R) : Rltb x y = false <-> ~ x < y.
Proof. unfold Rltb; destruct (Rlt_dec x y); split; intros; try easy. Qed.

(** ** The parameter vector *)

(** Modelled from the spec: the enumeration [Param] is declared in the
    header of the base class [CurvePrimitive], which is not part of the
    file.  Its six members, in the order of the spec's parameter vector
    (start X, start Y, start angle, length, curvature, curvature slope),
    name the entries of [_params] and the rows of the Jacobian.  Clothoid.cpp
    relies on [X], [Y] being entries 0 and 1 ([_params.head<2>()]) and on
    [DCURVATURE] following [CURVATURE] ([block<2, 2>(CURVATURE, 0)] is
    written where the other branches write the rows [CURVATURE] and
    [DCURVATURE]). *)
Inductive Param : Type := X | Y | ANGLE | LENGTH | CURVATURE | DCURVATURE.

Definition index (p : Param) : nat :=
  match p with
  | X => 0 | Y => 1 | ANGLE => 2 | LENGTH => 3 | CURVATURE => 4 | DCURVATURE => 5
  end%nat.

Definition ofIndex (i : nat) : option Param :=
  match i with
  | 0 => Some X | 1 => Some Y | 2 => Some ANGLE | 3 => Some LENGTH
  | 4 => Some CURVATURE | 5 => Some DCURVATURE | _ => None
  end%nat.

Definition numParams : nat := 6.

(** A vector with one entry per parameter: [ParamVec R] is [_params],
    [ParamVec Vec] is the 6x2 matrix [ParamDer], a row of two columns per
    parameter. *)
Record ParamVec (A : Type) : Type := mkPV {
  at_X : A; at_Y : A; at_ANGLE : A; at_LENGTH : A; at_CURVATURE : A; at_DCURVATURE : A
}.
Arguments mkPV {A}.
Arguments at_X {A}.
Arguments at_Y {A}.
Arguments at_ANGLE {A}.
Arguments at_LENGTH {A}.
Arguments at_CURVATURE {A}.
Arguments at_DCURVATURE {A}.

Definition get {A} (p : Param) (v : ParamVec A) : A :=
  match p with
  | X => at_X v | Y => at_Y v | ANGLE => at_ANGLE v
  | LENGTH => at_LENGTH v | CURVATURE => at_CURVATURE v | DCURVATURE => at_DCURVATURE v
  end.

Definition set {A} (p : Param) (a : A) (v : ParamVec A) : ParamVec A :=
  match p with
  | X => mkPV a (at_Y v) (at_ANGLE v) (at_LENGTH v) (at_CURVATURE v) (at_DCURVATURE v)
  | Y => mkPV (at_X v) a (at_ANGLE v) (at_LENGTH v) (at_CURVATURE v) (at_DCURVATURE v)
  | ANGLE => mkPV (at_X v) (at_Y v) a (at_LENGTH v) (at_CURVATURE v) (at_DCURVATURE v)
  | LENGTH => mkPV (at_X v) (at_Y v) (at_ANGLE v) a (at_CURVATURE v) (at_DCURVATURE v)
  | CURVATURE => mkPV (at_X v) (at_Y v) (at_ANGLE v) (at_LENGTH v) a (at_DCURVATURE v)
  | DCURVATURE => mkPV (at_X v) (at_Y v) (at_ANGLE v) (at_LENGTH v) (at_CURVATURE v) a
  end.

Notation "v .[ p ]" := (get p v) (at level 1, left associativity, format "v .[ p ]").

Definition Params : Type := ParamVec R.
Definition ParamDer : Type := ParamVec Vec.

(** [ParamDer::Zero(6, 2)] *)
Definition ParamDer_Zero : ParamDer := mkPV vzero vzero vzero vzero vzero vzero.

(** [out(p, 0) = a] and [out(p, 1) = a] *)
Definition setCol0 (p : Param) (a : R) (out : ParamDer) : ParamDer :=
  set p (mkVec a (vy out.[p])) out.
Definition setCol1 (p : Param) (a : R) (out : ParamDer) : ParamDer :=
  set p (mkVec (vx out.[p]) a) out.

(** [out.row(i) = v] for a row number; a number past the last row writes
    nothing. *)
Definition setRow (i : nat) (v : Vec) (out : ParamDer) : ParamDer :=
  match ofIndex i with
  | Some p => set p v out
  | None => out
  end.

(** [out.block<2, 2>(p, 0) = m]: the two rows starting at row [p]. *)
Definition setBlock22 (p : Param) (m : Mat) (out : ParamDer) : ParamDer :=
  setRow (index p + 1) (row1 m) (setRow (index p) (row0 m) out).

(** ** The object *)

Record Clothoid : Type := mkClothoid {
  _params : Params;
  _arc : bool;
  _flat : bool;
  _t1 : R;
  _tdiff : R;
  _mat : Mat;
  _startShift : Vec
}.

(** Modelled from the spec: the constants [PI] and [HALFPI] come from a
    header that is not part of the file; they are the number pi, which is
    [PI] of the reals, and the quarter turn. *)
Definition HALFPI : R := PI / 2.

(** A canonical range of angles: a half-open interval. *)
Definition inRange (rangeLo rangeHi a : R) : Prop := rangeLo <= a < rangeHi.

(** Modelled from the spec: [CurvePrimitive::_startPos] is declared in a
    header that is not part of the file; it is the start position, the
    entries [X], [Y] of the parameter vector. *)
Definition _startPos (params : Params) : Vec := mkVec params.[X] params.[Y].

(** Unfolds the vector and matrix operations down to coordinates. *)
Ltac coords :=
  unfold vadd, vsub, vscale, mulMV, mscale, rotation, reflection, _startPos, vzero;
  cbn [vx vy m00 m01 m10 m11 get
       at_X at_Y at_ANGLE at_LENGTH at_CURVATURE at_DCURVATURE].

Section Model.

(** The quotient of two doubles. *)
Variable fdiv : R -> R -> R.

(** [fresnel(t, &s, &c)] of Fresnel.h, as the pair of its two outputs: the
    Fresnel sine integral first, the cosine integral second. *)
Variable fresnel : R -> R * R.

(** [AngleUtils::toRange] *)
Variable toRange : R -> R.

(** [fresnel(t, &(cs[1]), &(cs[0]))]: the second output lands in the x
    coordinate, the first in y. *)
Definition fresnelCS (t : R) : Vec := mkVec (snd (fresnel t)) (fst (fresnel t)).

(** What lines 46-103 of [_paramsChanged] compute: the two flags, the two
    mapping scalars, the matrix, and the local [startcs]. *)
Record Canonical : Type := mkCanonical {
  k_arc : bool; k_flat : bool; k_t1 : R; k_tdiff : R; k_mat : Mat; k_startcs : Vec
}.

Definition canonical (params : Params) : Canonical :=
  let arc := Rltb (Rabs params.[DCURVATURE]) 1e-12 in
  if arc then
    let flat := Rltb (Rabs params.[CURVATURE]) 1e-6 in
    if flat then
      let angle := params.[ANGLE] in
      let cosA := cos angle in
      let sinA := sin angle in
      mkCanonical arc flat 0 1 (mkMat cosA (- sinA) sinA cosA) (mkVec 0 0)
    else
      let angle := params.[ANGLE] - HALFPI in
      let cosAS := fdiv (cos angle) params.[CURVATURE] in
      let sinAS := fdiv (sin angle) params.[CURVATURE] in
      mkCanonical arc flat 0 params.[CURVATURE]
        (mkMat cosAS (- sinAS) sinAS cosAS) (mkVec 1 0)
  else
    let scale := sqrt (Rabs (fdiv 1 (PI * params.[DCURVATURE]))) in
    let t1 := params.[CURVATURE] * scale in
    let tdiff := params.[DCURVATURE] * scale in
    let mat :=
      if Rltb 0 tdiff then
        let angleShift := params.[ANGLE] - t1 * t1 * HALFPI in
        let cosAS := PI * scale * cos angleShift in
        let sinAS := PI * scale * sin angleShift in
        mkMat cosAS (- sinAS) sinAS cosAS
      else
        let angleShift := params.[ANGLE] + t1 * t1 * HALFPI in
        let cosAS := PI * scale * cos angleShift in
        let sinAS := PI * scale * sin angleShift in
        mkMat (- cosAS) (- sinAS) (- sinAS) cosAS in
    mkCanonical arc false t1 tdiff mat (fresnelCS t1).

(** [_paramsChanged] assigns every cached member on every path and reads
    only [_params], so it is a function from the parameter vector to the
    whole object. *)
Definition _paramsChanged (params : Params) : Clothoid :=
  let k := canonical params in
  mkClothoid params (k_arc k) (k_flat k) (k_t1 k) (k_tdiff k) (k_mat k)
    (vsub (_startPos params) (mulMV (k_mat k) (k_startcs k))).

(** The constructor. *)
Definition Clothoid_Clothoid (start : Vec) (startAngle length curvature endCurvature : R)
  : Clothoid :=
  _paramsChanged
    (mkPV (vx start) (vy start) (toRange startAngle) length curvature
       (fdiv (endCurvature - curvature) length)).

Definition isValid (this : Clothoid) : bool :=
  if Rltb (_params this).[LENGTH] 0 then false else true.

(** [eval(s, pos, der, der2)]: each of the three booleans says whether the
    pointer of that name is non-null, and an output is [Some] exactly when
    it is written. *)
Definition eval (this : Clothoid) (s : R) (pos der der2 : bool)
  : option Vec * option Vec * option Vec :=
  let opos :=
    if pos then
      let t := _t1 this + s * _tdiff this in
      let cs :=
        if _flat this then mkVec t 0
        else if _arc this then mkVec (cos t) (sin t)
        else fresnelCS t in
      Some (vadd (_startShift this) (mulMV (_mat this) cs))
    else None in
  if der || der2 then
    let angle :=
      (_params this).[ANGLE]
      + s * ((_params this).[CURVATURE] + 0.5 * s * (_params this).[DCURVATURE]) in
    let cosa := cos angle in
    let sina := sin angle in
    (opos,
     if der then Some (mkVec cosa sina) else None,
     if der2 then
       Some (vscale ((_params this).[CURVATURE] + s * (_params this).[DCURVATURE])
               (mkVec (- sina) cosa))
     else None)
  else (opos, None, None).

Definition angle (this : Clothoid) (s : R) : R :=
  (_params this).[ANGLE]
  + s * ((_params this).[CURVATURE] + 0.5 * s * (_params this).[DCURVATURE]).

Definition curvature (this : Clothoid) (s : R) : R :=
  (_params this).[CURVATURE] + s * (_params this).[DCURVATURE].

Definition project (this : Clothoid) (point : Vec) : R := 0.

(** What a caller reads from an output of [eval]. *)
Definition written (o : option Vec) : Vec :=
  match o with Some v => v | None => vzero end.

(** Modelled from the spec: the accessors below belong to the base class
    [CurvePrimitive], whose header is not part of the file.  Each asks
    [eval] for one output, or evaluates at the stored length. *)
Definition pos (this : Clothoid) (s : R) : Vec :=
  written (fst (fst (eval this s true false false))).
Definition der (this : Clothoid) (s : R) : Vec :=
  written (snd (fst (eval this s false true false))).
Definition der2 (this : Clothoid) (s : R) : Vec :=
  written (snd (eval this s false false true)).
Definition length (this : Clothoid) : R := (_params this).[LENGTH].
Definition endPos (this : Clothoid) : Vec := pos this (length this).
Definition endAngle (this : Clothoid) : R := angle this (length this).
Definition endCurvature (this : Clothoid) : R := curvature this (length this).

(** [_params[p] = a], the cached members left as they are. *)
Definition assign (p : Param) (a : R) (this : Clothoid) : Clothoid :=
  mkClothoid (set p a (_params this)) (_arc this) (_flat this) (_t1 this)
    (_tdiff this) (_mat this) (_startShift this).

Definition trim (sFrom sTo : R) (this : Clothoid) : Clothoid :=
  let newStart := pos this sFrom in
  let this := assign ANGLE (angle this sFrom) this in
  let this := assign CURVATURE (curvature this sFrom) this in
  let this := assign LENGTH (sTo - sFrom) this in
  let this := assign X (vx newStart) this in
  let this := assign Y (vy newStart) this in
  _paramsChanged (_params this).

Definition flip (this : Clothoid) : Clothoid :=
  let newStart := endPos this in
  let this := assign ANGLE (PI + endAngle this) this in
  let this := assign CURVATURE (- endCurvature this) this in
  let this := assign X (vx newStart) this in
  let this := assign Y (vy newStart) this in
  _paramsChanged (_params this).


(** A vector over a scalar, coefficient by coefficient. *)
Definition vdiv (a : Vec) (k : R) : Vec := mkVec (fdiv (vx a) k) (fdiv (vy a) k).

(** [derivativeAt(s, out)]: the matrix written to [out]. *)
Definition derivativeAt (this : Clothoid) (s : R) : ParamDer :=
  let p := _params this in
  let out := ParamDer_Zero in
  let out := setCol0 X 1 out in
  let out := setCol1 Y 1 out in
  let diff := vsub (pos this s) (_startPos p) in
  let out := setCol0 ANGLE (- vy diff) out in
  let out := setCol1 ANGLE (vx diff) out in
  if _flat this then
    let nsinCos := mkVec (- sin p.[ANGLE]) (cos p.[ANGLE]) in
    let out := set CURVATURE (vscale (0.5 * s * s) nsinCos) out in
    set DCURVATURE (vscale (fdiv 0.5 3 * s * s * s) nsinCos) out
  else if _arc this then
    let curv := p.[CURVATURE] in
    let curAngle := angle this s in
    let cosCur := cos curAngle in
    let sinCur := sin curAngle in
    let cosStart := cos p.[ANGLE] in
    let sinStart := sin p.[ANGLE] in
    let curvs := curv * s in
    let curvDer :=
      mkVec (curvs * cosCur + sinStart - sinCur) (curvs * sinCur + cosCur - cosStart) in
    let out := set CURVATURE (vdiv curvDer (curv * curv)) out in
    let dcurvDer :=
      mkVec (cosStart + (curvs * curvs * 0.5 - 1) * cosCur - curvs * sinCur)
            (sinStart + (curvs * curvs * 0.5 - 1) * sinCur + curvs * cosCur) in
    set DCURVATURE (vdiv dcurvDer (curv * curv * curv)) out
  else
    let t := _t1 this + s * _tdiff this in
    let scale := sqrt (Rabs (fdiv 1 (PI * p.[DCURVATURE]))) in
    let dt1dx := mkVec scale (fdiv (- p.[CURVATURE] * scale) (2 * p.[DCURVATURE])) in
    let dtdx := vadd dt1dx (mkVec 0 (scale * s * 0.5)) in
    let cs := fresnelCS t in
    let startcs := fresnelCS (_t1 this) in
    let basicAngle := HALFPI * _t1 this * _t1 this in
    let dstartcs := mkVec (cos basicAngle) (sin basicAngle) in
    let dcs := mkVec (cos (HALFPI * t * t)) (sin (HALFPI * t * t)) in
    let result :=
      msub (outer (mulMV (_mat this) dcs) dtdx)
           (outer (mulMV (_mat this) dstartcs) dt1dx) in
    let angleShift :=
      if Rltb 0 (_tdiff this)
      then p.[ANGLE] - _t1 this * _t1 this * HALFPI
      else p.[ANGLE] + _t1 this * _t1 this * HALFPI in
    let cosAS := cos angleShift in
    let sinAS := sin angleShift in
    let dmatdc := mkMat sinAS cosAS (- cosAS) sinAS in
    let dmatdc := mscale (fdiv (PI * scale * p.[CURVATURE]) p.[DCURVATURE]) dmatdc in
    let curvSqr := p.[CURVATURE] * p.[CURVATURE] in
    let dd00 := - p.[DCURVATURE] * cosAS - curvSqr * sinAS in
    let dd01 := p.[DCURVATURE] * sinAS - curvSqr * cosAS in
    let dmatdd := mkMat dd00 dd01 (- dd01) dd00 in
    let dmatdd :=
      mscale (fdiv (HALFPI * scale) (p.[DCURVATURE] * p.[DCURVATURE])) dmatdd in
    let dmatdc := if Rltb (_tdiff this) 0 then negCol0 dmatdc else dmatdc in
    let dmatdd := if Rltb (_tdiff this) 0 then negCol0 dmatdd else dmatdd in
    let result := addCol0 result (mulMV dmatdc (vsub cs startcs)) in
    let result := addCol1 result (mulMV dmatdd (vsub cs startcs)) in
    setBlock22 CURVATURE (transpose result) out.

(** ** Properties *)

(** The quotient by a divisor that is not zero is the real quotient. *)
Hypothesis fdiv_spec : forall x y : R, y <> 0 -> fdiv x y = x / y.

(** *** Evaluation *)

Lemma eval_pos_only (this : Clothoid) (s : R) :
  eval this s true false false = (Some (pos this s), None, None).
Proof. reflexivity. Qed.

Lemma pos_unfold (this : Clothoid) (s : R) :
  pos this s =
  vadd (_startShift this)
    (mulMV (_mat this)
       (if _flat this then mkVec (_t1 this + s * _tdiff this) 0
        else if _arc this
             then mkVec (cos (_t1 this + s * _tdiff this)) (sin (_t1 this + s * _tdiff this))
             else fresnelCS (_t1 this + s * _tdiff this))).
Proof. reflexivity. Qed.

(** C8: [isValid] returns false exactly when the length entry is negative;
    it returns true at length 0, and two objects with the same length get
    the same answer whatever their other entries are. *)
Theorem isValid_false_iff_negative_length (this : Clothoid) :
  (isValid this = false <-> (_params this).[LENGTH] < 0)
  /\ ((_params this).[LENGTH] = 0 -> isValid this = true)
  /\ (forall that : Clothoid,
        (_params that).[LENGTH] = (_params this).[LENGTH] ->
        isValid that = isValid this).
Proof.
  unfold isValid. repeat split.
  - destruct (Rltb _ 0) eqn:E; [intros _; now apply Rltb_true | discriminate].
  - intros H. apply Rltb_true in H. now rewrite H.
  - intros H. rewrite H.
    destruct (Rltb 0 0) eqn:E; [apply Rltb_true in E; lra | reflexivity].
  - intros that H. now rewrite H.
Qed.

(** C10: [project] returns the same value, 0, for every point and every
    object. *)
Theorem project_is_constant (this that : Clothoid) (p q : Vec) :
  project this p = project that q /\ project this p = 0.
Proof. split; reflexivity. Qed.

(** C9: constructed with length 0, the object holds as its curvature slope
    the quotient of (end curvature - start curvature) by 0, whatever the
    other arguments are, and [isValid] accepts it. *)
Theorem constructor_divides_by_zero_length
  (start : Vec) (startAngle curvature endCurvature : R) :
  let c := Clothoid_Clothoid start startAngle 0 curvature endCurvature in
  (_params c).[LENGTH] = 0
  /\ (_params c).[DCURVATURE] = fdiv (endCurvature - curvature) 0
  /\ isValid c = true.
Proof.
  cbn. repeat split. unfold isValid; cbn.
  destruct (Rltb 0 0) eqn:E; [apply Rltb_true in E; lra | reflexivity].
Qed.

Lemma trim_unfold (this : Clothoid) (sFrom sTo : R) :
  trim sFrom sTo this =
  _paramsChanged
    (mkPV (vx (pos this sFrom)) (vy (pos this sFrom))
          (angle this sFrom) (sTo - sFrom) (curvature this sFrom)
          (_params this).[DCURVATURE]).
Proof. reflexivity. Qed.

(** C5: [trim] replaces the parameter vector by position, heading angle
    and curvature at [sFrom], all three read from the object as it was
    before the call, the length [sTo - sFrom] and the old curvature slope,
    and rebuilds the cached state from it; this for all [sFrom] and [sTo],
    in range or not. *)
Theorem trim_params (this : Clothoid) (sFrom sTo : R) :
  trim sFrom sTo this =
  _paramsChanged
    (mkPV (vx (pos this sFrom)) (vy (pos this sFrom))
          (angle this sFrom) (sTo - sFrom) (curvature this sFrom)
          (_params this).[DCURVATURE])
  /\ (_params (trim sFrom sTo this)).[ANGLE] =
     (_params this).[ANGLE]
     + sFrom * ((_params this).[CURVATURE] + 0.5 * sFrom * (_params this).[DCURVATURE])
  /\ (_params (trim sFrom sTo this)).[CURVATURE] =
     (_params this).[CURVATURE] + sFrom * (_params this).[DCURVATURE].
Proof.
  split; [apply trim_unfold | rewrite trim_unfold; split; reflexivity].
Qed.

(** C2: tangent and heading angle are given by the one closed form
    [theta = angle + s * (curvature + 0.5 * s * dcurvature)], whichever
    other outputs [eval] is asked for; tangent, heading angle, second
    derivative and scalar curvature are the same for any two objects with
    the same parameter vector, whatever their flags and cached transform
    are; the position is not. *)
Theorem tangent_and_angle_closed_form (this : Clothoid) (s : R) :
  let theta :=
    (_params this).[ANGLE]
    + s * ((_params this).[CURVATURE] + 0.5 * s * (_params this).[DCURVATURE]) in
  let kappa := (_params this).[CURVATURE] + s * (_params this).[DCURVATURE] in
  der this s = mkVec (cos theta) (sin theta)
  /\ angle this s = theta
  /\ der2 this s = vscale kappa (mkVec (- sin theta) (cos theta))
  /\ curvature this s = kappa
  /\ (forall wantPos wantDer2 : bool,
        snd (fst (eval this s wantPos true wantDer2)) = Some (mkVec (cos theta) (sin theta)))
  /\ (forall (arc flat : bool) (t1 tdiff : R) (mat : Mat) (shift : Vec),
        let that := mkClothoid (_params this) arc flat t1 tdiff mat shift in
        der that s = der this s /\ angle that s = angle this s
        /\ der2 that s = der2 this s /\ curvature that s = curvature this s)
  /\ (exists (t1 tdiff : R) (mat : Mat) (shift : Vec),
        pos (mkClothoid (_params this) true true t1 tdiff mat shift) s
        <> pos (mkClothoid (_params this) true false t1 tdiff mat shift) s).
Proof.
  cbv zeta. do 4 (split; [reflexivity |]).
  split; [| split].
  - intros wantPos wantDer2. unfold eval. cbn. reflexivity.
  - intros. repeat split.
  - exists 0, 0, (mkMat 1 0 0 1), vzero.
    rewrite !pos_unfold. cbn.
    rewrite Rmult_0_r, Rplus_0_r, cos_0, sin_0.
    intros H. apply (f_equal vx) in H. cbn in H. lra.
Qed.

(** C4: the Jacobian has the row (1, 0) for the start X, (0, 1) for the
    start Y, (-dy, dx) for the start angle, where (dx, dy) is the position
    at [s] minus the start position, and the zero row for the length. *)
Theorem derivativeAt_fixed_rows (this : Clothoid) (s : R) :
  let out := derivativeAt this s in
  let diff := vsub (pos this s) (_startPos (_params this)) in
  out.[X] = mkVec 1 0
  /\ out.[Y] = mkVec 0 1
  /\ out.[ANGLE] = mkVec (- vy diff) (vx diff)
  /\ out.[LENGTH] = mkVec 0 0.
Proof.
  cbv zeta. unfold derivativeAt.
  destruct (_flat this); [| destruct (_arc this)]; repeat split.
Qed.

(** *** The regime classifier *)

Lemma canonical_flat (params : Params) :
  Rabs params.[DCURVATURE] < 1e-12 -> Rabs params.[CURVATURE] < 1e-6 ->
  canonical params =
  mkCanonical true true 0 1 (rotation params.[ANGLE]) (mkVec 0 0).
Proof.
  intros Hd Hc. unfold canonical.
  apply Rltb_true in Hd, Hc. now rewrite Hd, Hc.
Qed.

Lemma canonical_arc (params : Params) :
  Rabs params.[DCURVATURE] < 1e-12 -> ~ Rabs params.[CURVATURE] < 1e-6 ->
  canonical params =
  mkCanonical true false 0 params.[CURVATURE]
    (mscale (/ params.[CURVATURE]) (rotation (params.[ANGLE] - HALFPI))) (mkVec 1 0).
Proof.
  intros Hd Hc. unfold canonical.
  assert (Hk : params.[CURVATURE] <> 0).
  { intros E. apply Hc. rewrite E, Rabs_R0. lra. }
  apply Rltb_true in Hd. apply Rltb_false in Hc. rewrite Hd, Hc.
  cbv zeta. rewrite !fdiv_spec by assumption.
  unfold mscale, rotation; cbn. f_equal. f_equal; unfold Rdiv; ring.
Qed.

(** C3: the arc flag is set exactly when |dcurvature| < 1e-12 and the flat
    flag exactly when, in addition, |curvature| < 1e-6.  With the arc flag
    set the offset [_t1] is 0; in the flat case the scale [_tdiff] is 1,
    the matrix is the rotation by the start angle and the canonical start
    point is (0, 0); in the other arc case the scale is the curvature, the
    matrix is the rotation by (start angle - PI/2) scaled by 1/curvature
    and the canonical start point is (1, 0). *)
Theorem regime_classifier (params : Params) :
  let this := _paramsChanged params in
  let startcs := k_startcs (canonical params) in
  (_arc this = true <-> Rabs params.[DCURVATURE] < 1e-12)
  /\ (_flat this = true <->
      Rabs params.[DCURVATURE] < 1e-12 /\ Rabs params.[CURVATURE] < 1e-6)
  /\ (_arc this = true -> _t1 this = 0)
  /\ (_flat this = true ->
      _tdiff this = 1 /\ _mat this = rotation params.[ANGLE] /\ startcs = mkVec 0 0)
  /\ (_arc this = true -> _flat this = false ->
      _tdiff this = params.[CURVATURE]
      /\ _mat this = mscale (/ params.[CURVATURE]) (rotation (params.[ANGLE] - PI / 2))
      /\ startcs = mkVec 1 0).
Proof.
  cbv zeta. unfold _paramsChanged; cbn [_arc _flat _t1 _tdiff _mat].
  destruct (Rlt_dec (Rabs params.[DCURVATURE]) 1e-12) as [Hd | Hd];
    [destruct (Rlt_dec (Rabs params.[CURVATURE]) 1e-6) as [Hc | Hc] |].
  - rewrite (canonical_flat _ Hd Hc); cbn.
    repeat split; try easy.
  - rewrite (canonical_arc _ Hd Hc); cbn.
    repeat split; try easy; tauto.
  - assert (E : k_arc (canonical params) = false /\ k_flat (canonical params) = false).
    { unfold canonical. apply Rltb_false in Hd. now rewrite Hd. }
    destruct E as [Ea Ef]. rewrite Ea, Ef.
    repeat split; try easy; tauto.
Qed.

(** *** Position at arc length 0 *)

(** At [s = 0] the canonical point [eval] computes is the local [startcs]
    of [_paramsChanged]. *)
Lemma canonical_point_at_0 (params : Params) :
  let this := _paramsChanged params in
  (if _flat this then mkVec (_t1 this + 0 * _tdiff this) 0
   else if _arc this
        then mkVec (cos (_t1 this + 0 * _tdiff this)) (sin (_t1 this + 0 * _tdiff this))
        else fresnelCS (_t1 this + 0 * _tdiff this))
  = k_startcs (canonical params).
Proof.
  cbv zeta. unfold _paramsChanged; cbn [_arc _flat _t1 _tdiff].
  unfold canonical.
  destruct (Rltb (Rabs params.[DCURVATURE]) 1e-12);
    [destruct (Rltb (Rabs params.[CURVATURE]) 1e-6) |]; cbn.
  - f_equal; ring.
  - replace (0 + 0 * at_CURVATURE params) with 0 by ring.
    now rewrite cos_0, sin_0.
  - f_equal; ring.
Qed.

Lemma pos_at_0_canonical (params : Params) :
  pos (_paramsChanged params) 0 =
  vadd (_startShift (_paramsChanged params))
    (mulMV (_mat (_paramsChanged params)) (k_startcs (canonical params))).
Proof. rewrite pos_unfold. now rewrite canonical_point_at_0. Qed.


(** The flat flag is set only below both thresholds. *)
Lemma flat_thresholds (params : Params) :
  _flat (_paramsChanged params) = true ->
  Rabs params.[DCURVATURE] < 1e-12 /\ Rabs params.[CURVATURE] < 1e-6.
Proof.
  unfold _paramsChanged, canonical; cbn [_flat].
  destruct (Rltb (Rabs params.[DCURVATURE]) 1e-12) eqn:Ed;
    [destruct (Rltb (Rabs params.[CURVATURE]) 1e-6) eqn:Ek |]; cbn; try discriminate.
  intros _. split; now apply Rltb_true.
Qed.

(** C1, amended: once [_paramsChanged] has run, in each of the three
    regimes the cached translation is the start position minus the matrix
    applied to the canonical start point, and the position at arc length 0
    is that translation plus the matrix applied to the same point; in the
    flat regime that point is (0, 0), the translation is the stored start
    position itself, and so is the position at arc length 0. *)
Theorem pos_0_is_translation_plus_start_point (params : Params) :
  let this := _paramsChanged params in
  let startcs := k_startcs (canonical params) in
  _startShift this = vsub (_startPos params) (mulMV (_mat this) startcs)
  /\ pos this 0 = vadd (_startShift this) (mulMV (_mat this) startcs)
  /\ (_flat this = true ->
      startcs = mkVec 0 0
      /\ _startShift this = _startPos params
      /\ pos this 0 = _startPos params).
Proof.
  cbv zeta. split; [reflexivity | split; [apply pos_at_0_canonical |]].
  intros Hf. destruct (flat_thresholds _ Hf) as [Hd Hk].
  rewrite pos_unfold. unfold _paramsChanged.
  rewrite (canonical_flat _ Hd Hk).
  cbn [k_startcs k_mat k_flat k_t1 k_tdiff _startShift _mat _flat _t1 _tdiff].
  coords. repeat split; f_equal; ring.
Qed.

(** *** Reversal *)



(** The position in the flat regime: a straight line. *)
Lemma pos_flat (params : Params) (s : R) :
  Rabs params.[DCURVATURE] < 1e-12 -> Rabs params.[CURVATURE] < 1e-6 ->
  pos (_paramsChanged params) s =
  mkVec (params.[X] + s * cos params.[ANGLE]) (params.[Y] + s * sin params.[ANGLE]).
Proof.
  intros Hd Hc. rewrite pos_unfold. unfold _paramsChanged.
  rewrite (canonical_flat _ Hd Hc). cbn. coords. f_equal; ring.
Qed.

(** The position in the circular-arc regime: a circle of radius
    1/curvature. *)
Lemma pos_arc (params : Params) (s : R) :
  Rabs params.[DCURVATURE] < 1e-12 -> ~ Rabs params.[CURVATURE] < 1e-6 ->
  pos (_paramsChanged params) s =
  mkVec (params.[X]
         + (sin (params.[ANGLE] + s * params.[CURVATURE]) - sin params.[ANGLE])
           / params.[CURVATURE])
        (params.[Y]
         + (cos params.[ANGLE] - cos (params.[ANGLE] + s * params.[CURVATURE]))
           / params.[CURVATURE]).
Proof.
  intros Hd Hc.
  assert (Hk : params.[CURVATURE] <> 0).
  { intros E. apply Hc. rewrite E, Rabs_R0. lra. }
  rewrite pos_unfold. unfold _paramsChanged.
  rewrite (canonical_arc _ Hd Hc). cbn. coords.
  replace (0 + s * at_CURVATURE params) with (s * at_CURVATURE params) by ring.
  unfold HALFPI. rewrite cos_minus, sin_minus, cos_PI2, sin_PI2.
  rewrite (sin_plus (at_ANGLE params)), (cos_plus (at_ANGLE params)).
  cbn in Hk. f_equal; field; assumption.
Qed.

(** The literal [0.5], in the form [ring] and [field] work with. *)
Lemma half_eq : 0.5 = / 2.
Proof. lra. Qed.

Lemma small_0_12 : Rabs 0 < 1e-12.
Proof. rewrite Rabs_R0; lra. Qed.

Lemma small_0_6 : Rabs 0 < 1e-6.
Proof. rewrite Rabs_R0; lra. Qed.









(** *** Derivatives

    The rules of differentiation, for functions written as abstractions,
    and a tactic that applies them and leaves the derivative it finds to
    be compared with the expected one. *)

Lemma D_const (c x : R) : derivable_pt_lim (fun _ => c) x 0.
Proof. apply derivable_pt_lim_const. Qed.
Lemma D_id (x : R) : derivable_pt_lim (fun u => u) x 1.
Proof. apply derivable_pt_lim_id. Qed.
Lemma D_plus (f g : R -> R) (x l1 l2 : R) :
  derivable_pt_lim f x l1 -> derivable_pt_lim g x l2 ->
  derivable_pt_lim (fun u => f u + g u) x (l1 + l2).
Proof. apply derivable_pt_lim_plus. Qed.
Lemma D_minus (f g : R -> R) (x l1 l2 : R) :
  derivable_pt_lim f x l1 -> derivable_pt_lim g x l2 ->
  derivable_pt_lim (fun u => f u - g u) x (l1 - l2).
Proof. apply derivable_pt_lim_minus. Qed.
Lemma D_opp (f : R -> R) (x l : R) :
  derivable_pt_lim f x l -> derivable_pt_lim (fun u => - f u) x (- l).
Proof. apply derivable_pt_lim_opp. Qed.
Lemma D_mult (f g : R -> R) (x l1 l2 : R) :
  derivable_pt_lim f x l1 -> derivable_pt_lim g x l2 ->
  derivable_pt_lim (fun u => f u * g u) x (l1 * g x + f x * l2).
Proof. apply derivable_pt_lim_mult. Qed.
Lemma D_comp (F f : R -> R) (x l L : R) :
  derivable_pt_lim f x l -> derivable_pt_lim F (f x) L ->
  derivable_pt_lim (fun u => F (f u)) x (L * l).
Proof. intros Hf HF. exact (derivable_pt_lim_comp f F x l L Hf HF). Qed.
Lemma D_sin (f : R -> R) (x l : R) :
  derivable_pt_lim f x l -> derivable_pt_lim (fun u => sin (f u)) x (cos (f x) * l).
Proof. intros H. apply (D_comp sin f x l _ H), derivable_pt_lim_sin. Qed.
Lemma D_cos (f : R -> R) (x l : R) :
  derivable_pt_lim f x l -> derivable_pt_lim (fun u => cos (f u)) x (- sin (f x) * l).
Proof. intros H. apply (D_comp cos f x l _ H), derivable_pt_lim_cos. Qed.
Lemma D_eq (f : R -> R) (x l l' : R) :
  derivable_pt_lim f x l' -> l' = l -> derivable_pt_lim f x l.
Proof. intros H <-. exact H. Qed.

Ltac derive_step :=
  first [ apply D_const | apply D_id
        | eapply D_plus | eapply D_minus | eapply D_opp | eapply D_mult
        | eapply D_sin | eapply D_cos ].
Ltac derive := repeat derive_step.

(** *** Tangent and second derivative *)

(** The second derivative [eval] returns is the derivative of the tangent
    it returns, the scalar curvature is the derivative of the heading
    angle, and the curvature slope is the derivative of the scalar
    curvature, at every arc length and in every regime. *)
Theorem der2_is_derivative_of_der (this : Clothoid) (s : R) :
  derivable_pt_lim (fun u => vx (der this u)) s (vx (der2 this s))
  /\ derivable_pt_lim (fun u => vy (der this u)) s (vy (der2 this s))
  /\ derivable_pt_lim (angle this) s (curvature this s)
  /\ derivable_pt_lim (curvature this) s (_params this).[DCURVATURE].
Proof.
  set (th := (_params this).[ANGLE]). set (k := (_params this).[CURVATURE]).
  set (d := (_params this).[DCURVATURE]).
  assert (Ha : derivable_pt_lim (fun u => th + u * (k + / 2 * u * d)) s (k + s * d)).
  { eapply D_eq; [derive | cbv beta; field]. }
  repeat split.
  - apply (derivable_pt_lim_ext (fun u => cos (th + u * (k + / 2 * u * d)))).
    { intros u. unfold der; cbn. now rewrite half_eq. }
    eapply D_eq; [eapply D_cos, Ha |].
    unfold der2; cbn. rewrite half_eq. fold th k d. ring.
  - apply (derivable_pt_lim_ext (fun u => sin (th + u * (k + / 2 * u * d)))).
    { intros u. unfold der; cbn. now rewrite half_eq. }
    eapply D_eq; [eapply D_sin, Ha |].
    unfold der2; cbn. rewrite half_eq. fold th k d. ring.
  - apply (derivable_pt_lim_ext (fun u => th + u * (k + / 2 * u * d))).
    { intros u. unfold angle. now rewrite half_eq. }
    exact Ha.
  - unfold curvature. fold k d. eapply D_eq; [derive | cbv beta; ring].
Qed.

(** The tangent is a unit vector and the second derivative is normal to
    it. *)
Lemma der_unit (this : Clothoid) (s : R) :
  vx (der this s) * vx (der this s) + vy (der this s) * vy (der this s) = 1
  /\ vx (der this s) * vx (der2 this s) + vy (der this s) * vy (der2 this s) = 0.
Proof.
  unfold der, der2; cbn.
  set (a := at_ANGLE _ + _).
  pose proof (sin2_cos2 a) as H. unfold Rsqr in H. split; [lra | ring].
Qed.

(** *** Trimming *)



(** [trim] gives a valid object exactly when [sFrom <= sTo], whatever the
    object it is applied to; [flip] keeps length, curvature slope and
    validity. *)
Theorem validity_after_trim_and_flip (this : Clothoid) (sFrom sTo : R) :
  (isValid (trim sFrom sTo this) = true <-> sFrom <= sTo)
  /\ length (flip this) = length this
  /\ (_params (flip this)).[DCURVATURE] = (_params this).[DCURVATURE]
  /\ isValid (flip this) = isValid this.
Proof.
  split; [| repeat split].
  rewrite trim_unfold. unfold isValid.
  cbn [_params _paramsChanged get at_LENGTH].
  destruct (Rltb (sTo - sFrom) 0) eqn:E.
  - apply Rltb_true in E. split; [discriminate | lra].
  - apply Rltb_false in E. split; [lra | reflexivity].
Qed.

(** *** The shape of the curve in the arc regimes *)

(** In the flat regime the positions are on the straight line through the
    start position in the direction of the start angle, at distance [s],
    whatever the curvature and curvature slope within the thresholds. *)
Theorem flat_regime_is_a_line (params : Params) (s : R) :
  Rabs params.[DCURVATURE] < 1e-12 -> Rabs params.[CURVATURE] < 1e-6 ->
  pos (_paramsChanged params) s =
  vadd (_startPos params) (vscale s (mkVec (cos params.[ANGLE]) (sin params.[ANGLE]))).
Proof. intros Hd Hk. rewrite (pos_flat _ _ Hd Hk). reflexivity. Qed.

(** In the circular-arc regime the positions are on the circle of radius
    1/|curvature| whose centre is 1/curvature to the left of the start
    position. *)
Theorem arc_regime_is_a_circle (params : Params) (s : R) :
  Rabs params.[DCURVATURE] < 1e-12 -> ~ Rabs params.[CURVATURE] < 1e-6 ->
  let k := params.[CURVATURE] in
  let centre :=
    vadd (_startPos params)
      (vscale (/ k) (mkVec (- sin params.[ANGLE]) (cos params.[ANGLE]))) in
  let radial := vsub (pos (_paramsChanged params) s) centre in
  vx radial * vx radial + vy radial * vy radial = / k * / k.
Proof.
  intros Hd Hk. cbv zeta.
  assert (Hk0 : params.[CURVATURE] <> 0).
  { intros E. apply Hk. rewrite E. apply small_0_6. }
  rewrite (pos_arc _ _ Hd Hk). coords. cbn in Hk0.
  set (a := at_ANGLE params + s * at_CURVATURE params).
  pose proof (sin2_cos2 a) as H. unfold Rsqr in H.
  replace (/ at_CURVATURE params * / at_CURVATURE params)
    with ((sin a * sin a + cos a * cos a) * (/ at_CURVATURE params * / at_CURVATURE params))
    by (rewrite H; ring).
  field. exact Hk0.
Qed.

(** *** What the arc regimes leave out *)

(** The position [eval] returns does not read the parameters the regime
    leaves out: with the curvature slope below its threshold 1e-12, any
    other slope below the threshold gives the same position at every arc
    length, and in the flat regime so does any other curvature below the
    threshold 1e-6 together with it. *)
Theorem arc_regimes_ignore_small_parameters (params : Params) (k' d' s : R) :
  Rabs params.[DCURVATURE] < 1e-12 -> Rabs d' < 1e-12 ->
  pos (_paramsChanged (set DCURVATURE d' params)) s = pos (_paramsChanged params) s
  /\ (Rabs params.[CURVATURE] < 1e-6 -> Rabs k' < 1e-6 ->
      pos (_paramsChanged (set CURVATURE k' (set DCURVATURE d' params))) s
      = pos (_paramsChanged params) s).
Proof.
  intros Hd Hd'. split.
  - destruct (Rlt_dec (Rabs params.[CURVATURE]) 1e-6) as [Hk | Hk].
    + now rewrite !pos_flat.
    + now rewrite !pos_arc.
  - intros Hk Hk'. now rewrite !pos_flat.
Qed.

(** *** The Jacobian at the start point *)

(** At arc length 0 the rows of the Jacobian for the curvature and for the
    curvature slope are zero, in each of the three regimes: the start
    point does not move with either. *)
Theorem jacobian_curvature_rows_vanish_at_0 (params : Params) :
  let out := derivativeAt (_paramsChanged params) 0 in
  out.[CURVATURE] = mkVec 0 0 /\ out.[DCURVATURE] = mkVec 0 0.
Proof.
  cbv zeta. unfold derivativeAt, angle.
  destruct (Rlt_dec (Rabs params.[DCURVATURE]) 1e-12) as [Hd | Hd];
    [destruct (Rlt_dec (Rabs params.[CURVATURE]) 1e-6) as [Hk | Hk] |].
  - unfold _paramsChanged. rewrite (canonical_flat _ Hd Hk).
    cbn [_flat k_flat _params]. cbv zeta.
    cbn [get set at_CURVATURE at_DCURVATURE]. unfold vscale; cbn [vx vy].
    split; f_equal; ring.
  - assert (Hk0 : params.[CURVATURE] <> 0).
    { intros E. apply Hk. rewrite E. apply small_0_6. }
    assert (Hk2 : params.[CURVATURE] * params.[CURVATURE] <> 0)
      by now apply Rmult_integral_contrapositive_currified.
    assert (Hk3 : params.[CURVATURE] * params.[CURVATURE] * params.[CURVATURE] <> 0)
      by now apply Rmult_integral_contrapositive_currified.
    unfold _paramsChanged. rewrite (canonical_arc _ Hd Hk).
    cbn [_flat _arc k_flat k_arc _params]. cbv zeta.
    replace (params.[ANGLE]
             + 0 * (params.[CURVATURE] + 0.5 * 0 * params.[DCURVATURE]))
      with params.[ANGLE] by ring.
    unfold vdiv; cbn [vx vy]. rewrite !fdiv_spec by assumption.
    cbn [get set at_CURVATURE at_DCURVATURE] in *.
    split; f_equal; field; assumption.
  - assert (E : k_arc (canonical params) = false /\ k_flat (canonical params) = false).
    { unfold canonical. apply Rltb_false in Hd. now rewrite Hd. }
    destruct E as [Ea Ef].
    unfold _paramsChanged. cbn [_flat _arc _params _t1 _tdiff _mat]. rewrite Ea, Ef.
    cbv zeta.
    replace (k_t1 (canonical params) + 0 * k_tdiff (canonical params))
      with (k_t1 (canonical params)) by ring.
    unfold setBlock22, setRow; cbn [index ofIndex Nat.add].
    cbn [get set at_CURVATURE at_DCURVATURE].
    destruct (Rltb (k_tdiff (canonical params)) 0);
      unfold transpose, row0, row1, addCol0, addCol1, negCol0, msub, outer, mscale;
      coords; split; f_equal; ring.
Qed.

(** *** Two flips *)


(** *** The range of the stored angle *)

(** The canonical range [toRange] maps into. *)
Variables rangeLo rangeHi : R.
Hypothesis toRange_range : forall a : R, inRange rangeLo rangeHi (toRange a).

Lemma constructed_params (start : Vec) (startAngle len curv : R) :
  len <> 0 ->
  Clothoid_Clothoid start startAngle len curv curv =
  _paramsChanged (mkPV (vx start) (vy start) (toRange startAngle) len curv 0).
Proof.
  intros Hl. unfold Clothoid_Clothoid. rewrite fdiv_spec by exact Hl.
  do 2 f_equal. unfold Rdiv. ring.
Qed.

(** C7: the constructor stores an angle in the canonical range, but [flip]
    and [trim] store the angle they compute as it is: on the double circle
    of curvature 1 and length twice the width of the range, built at angle
    0, neither the flipped object nor the second half cut out by [trim]
    has its angle in the range. *)
Theorem angle_not_normalized_by_trim_flip :
  (forall (start : Vec) (startAngle len curv endCurv : R),
      inRange rangeLo rangeHi
        (_params (Clothoid_Clothoid start startAngle len curv endCurv)).[ANGLE])
  /\ (let w := rangeHi - rangeLo in
      let this := Clothoid_Clothoid (mkVec 0 0) 0 (2 * w) 1 1 in
      ~ inRange rangeLo rangeHi (_params (flip this)).[ANGLE]
      /\ ~ inRange rangeLo rangeHi (_params (trim w (2 * w) this)).[ANGLE]).
Proof.
  pose proof (toRange_range 0) as H0. pose proof PI_RGT_0 as Hpi.
  unfold inRange in H0.
  split.
  - intros. apply toRange_range.
  - cbv zeta. rewrite constructed_params by lra.
    unfold inRange, flip, trim, endAngle, angle, length.
    cbn [_params assign set get _paramsChanged
         at_X at_Y at_ANGLE at_LENGTH at_CURVATURE at_DCURVATURE].
    split; lra.
Qed.

End Model.

(** ** The external operations, on the reals

    The theorems above hold for every division that is the real quotient
    away from 0, every Fresnel evaluator and every normaliser into a
    half-open interval.  This part gives one of each: the real quotient,
    the Fresnel integrals themselves, and the normaliser into [-PI, PI). *)

Lemma Rdiv_spec : forall x y : R, y <> 0 -> Rdiv x y = x / y.
Proof. reflexivity. Qed.

(** The integrands of the Fresnel integrals. *)
Definition fresnelSinArg (u : R) : R := sin (PI / 2 * u * u).
Definition fresnelCosArg (u : R) : R := cos (PI / 2 * u * u).

Lemma fresnelSinArg_continuous : continuity fresnelSinArg.
Proof. unfold fresnelSinArg. reg. Qed.

Lemma fresnelCosArg_continuous : continuity fresnelCosArg.
Proof. unfold fresnelCosArg. reg. Qed.

(** The integral of a continuous function from 0 to [|a|]. *)
Definition integralTo (f : R -> R) (Hf : continuity f) (a : R) : R :=
  RiemannInt (continuity_implies_RiemannInt (Rabs_pos a) (fun x _ => Hf x)).

(** The integral from 0 to [t] of an even integrand: the integral to [|t|]
    with the sign of [t]. *)
Definition signedIntegral (f : R -> R) (Hf : continuity f) (t : R) : R :=
  if Rle_dec 0 t then integralTo f Hf t else - integralTo f Hf t.

(** The Fresnel sine and cosine integrals, in the order of the outputs of
    [fresnel]. *)
Definition fresnelIntegrals (t : R) : R * R :=
  (signedIntegral fresnelSinArg fresnelSinArg_continuous t,
   signedIntegral fresnelCosArg fresnelCosArg_continuous t).

(** Modelled from the spec: [AngleUtils::toRange] is not part of the file,
    and the spec says of it only that the start angle is kept normalized
    to a canonical range.  This is the normaliser into [-PI, PI): the
    angle less the whole number of turns that takes it there. *)
Definition toRange_pi (a : R) : R :=
  a - 2 * PI * IZR (Int_part ((a + PI) / (2 * PI))).

Lemma toRange_pi_range (a : R) : inRange (- PI) PI (toRange_pi a).
Proof.
  pose proof PI_RGT_0 as Hpi. unfold inRange, toRange_pi.
  destruct (base_Int_part ((a + PI) / (2 * PI))) as [H1 H2].
  set (q := IZR (Int_part ((a + PI) / (2 * PI)))) in *.
  assert (E : (a + PI) / (2 * PI) * (2 * PI) = a + PI) by (field; lra).
  split; nra.
Qed.

(** ** Instances *)

(** The unit half circle: curvature 1, curvature slope 0, length PI. *)
Definition halfCircle : Params := mkPV 0 0 0 PI 1 0.

(** The classifier on the half circle, with the real quotient. *)
Lemma regime_classifier_witness :
  let this := _paramsChanged Rdiv fresnelIntegrals halfCircle in
  let startcs := k_startcs (canonical Rdiv fresnelIntegrals halfCircle) in
  (_arc this = true <-> Rabs halfCircle.[DCURVATURE] < 1e-12)
  /\ (_flat this = true <->
      Rabs halfCircle.[DCURVATURE] < 1e-12 /\ Rabs halfCircle.[CURVATURE] < 1e-6)
  /\ (_arc this = true -> _t1 this = 0)
  /\ (_flat this = true ->
      _tdiff this = 1 /\ _mat this = rotation halfCircle.[ANGLE] /\ startcs = mkVec 0 0)
  /\ (_arc this = true -> _flat this = false ->
      _tdiff this = halfCircle.[CURVATURE]
      /\ _mat this =
         mscale (/ halfCircle.[CURVATURE]) (rotation (halfCircle.[ANGLE] - PI / 2))
      /\ startcs = mkVec 1 0).
Proof. exact (regime_classifier Rdiv fresnelIntegrals Rdiv_spec halfCircle). Defined.

Lemma toRange_pi_0 : toRange_pi 0 = 0.
Proof.
  pose proof PI_RGT_0 as Hpi. unfold toRange_pi.
  replace (Int_part ((0 + PI) / (2 * PI))) with 0%Z; [cbn; ring |].
  apply Int_part_spec.
  replace ((0 + PI) / (2 * PI)) with (/ 2) by (field; lra).
  cbn. lra.
Qed.


(** The two scenarios of the spec: the unit segment along the x axis ends
    at (1, 0), and the unit half circle is at (1, 1) after a quarter
    turn. *)
Example unit_segment_end :
  pos fresnelIntegrals
    (Clothoid_Clothoid Rdiv fresnelIntegrals toRange_pi (mkVec 0 0) 0 1 0 0) 1
  = mkVec 1 0.
Proof.
  rewrite (constructed_params Rdiv fresnelIntegrals toRange_pi Rdiv_spec) by lra.
  rewrite toRange_pi_0, pos_flat.
  - cbn. rewrite cos_0, sin_0. f_equal; ring.
  - apply small_0_12.
  - apply small_0_6.
Qed.

Example half_circle_quarter_turn :
  pos fresnelIntegrals
    (Clothoid_Clothoid Rdiv fresnelIntegrals toRange_pi (mkVec 0 0) 0 PI 1 1) (PI / 2)
  = mkVec 1 1.
Proof.
  pose proof PI_RGT_0 as Hpi.
  rewrite (constructed_params Rdiv fresnelIntegrals toRange_pi Rdiv_spec) by lra.
  rewrite toRange_pi_0, (pos_arc Rdiv fresnelIntegrals Rdiv_spec).
  - cbn. replace (0 + PI / 2 * 1) with (PI / 2) by ring.
    rewrite cos_0, sin_0, cos_PI2, sin_PI2. f_equal; field.
  - apply small_0_12.
  - cbn. rewrite Rabs_R1. lra.
Qed.

(** The double circle flipped, and its second half: the stored angles are
    5 PI and 2 PI. *)
Example flip_and_trim_angles :
  let this :=
    Clothoid_Clothoid Rdiv fresnelIntegrals toRange_pi (mkVec 0 0) 0 (4 * PI) 1 1 in
  (_params this).[ANGLE] = 0
  /\ (_params (flip Rdiv fresnelIntegrals this)).[ANGLE] = 5 * PI
  /\ (_params (trim Rdiv fresnelIntegrals (2 * PI) (4 * PI) this)).[ANGLE] = 2 * PI.
Proof.
  pose proof PI_RGT_0 as Hpi. cbv zeta.
  rewrite (constructed_params Rdiv fresnelIntegrals toRange_pi Rdiv_spec) by lra.
  rewrite toRange_pi_0.
  unfold flip, trim, endAngle, angle, length.
  cbn [_params assign set get _paramsChanged
       at_X at_Y at_ANGLE at_LENGTH at_CURVATURE at_DCURVATURE].
  repeat split; lra.
Qed.

(** The range [-PI, PI) and its normaliser: the double circle has length
    4 PI. *)
Lemma angle_not_normalized_by_trim_flip_witness :
  (forall (start : Vec) (startAngle len curv endCurv : R),
      inRange (- PI) PI
        (_params (Clothoid_Clothoid Rdiv fresnelIntegrals toRange_pi
                    start startAngle len curv endCurv)).[ANGLE])
  /\ (let w := PI - - PI in
      let this :=
        Clothoid_Clothoid Rdiv fresnelIntegrals toRange_pi (mkVec 0 0) 0 (2 * w) 1 1 in
      ~ inRange (- PI) PI (_params (flip Rdiv fresnelIntegrals this)).[ANGLE]
      /\ ~ inRange (- PI) PI
            (_params (trim Rdiv fresnelIntegrals w (2 * w) this)).[ANGLE]).
Proof.
  exact (angle_not_normalized_by_trim_flip Rdiv fresnelIntegrals toRange_pi Rdiv_spec
           (- PI) PI toRange_pi_range).
Defined.

(** The unit segment along the x axis. *)
Definition unitSegment : Params := mkPV 0 0 0 1 0 0.

Lemma halfCircle_arc :
  Rabs halfCircle.[DCURVATURE] < 1e-12 /\ ~ Rabs halfCircle.[CURVATURE] < 1e-6.
Proof. cbn. rewrite Rabs_R0, Rabs_R1. split; lra. Qed.

Lemma unitSegment_flat :
  Rabs unitSegment.[DCURVATURE] < 1e-12 /\ Rabs unitSegment.[CURVATURE] < 1e-6.
Proof. cbn. rewrite Rabs_R0. split; lra. Qed.

Lemma flat_regime_is_a_line_witness :
  (Rabs unitSegment.[DCURVATURE] < 1e-12 /\ Rabs unitSegment.[CURVATURE] < 1e-6)
  /\ pos fresnelIntegrals (_paramsChanged Rdiv fresnelIntegrals unitSegment) (/ 2)
     = vadd (_startPos unitSegment)
         (vscale (/ 2) (mkVec (cos unitSegment.[ANGLE]) (sin unitSegment.[ANGLE]))).
Proof.
  split; [exact unitSegment_flat |].
  exact (flat_regime_is_a_line Rdiv fresnelIntegrals unitSegment (/ 2)
           (proj1 unitSegment_flat) (proj2 unitSegment_flat)).
Defined.

Lemma arc_regime_is_a_circle_witness :
  (Rabs halfCircle.[DCURVATURE] < 1e-12 /\ ~ Rabs halfCircle.[CURVATURE] < 1e-6)
  /\ (let k := halfCircle.[CURVATURE] in
      let centre :=
        vadd (_startPos halfCircle)
          (vscale (/ k) (mkVec (- sin halfCircle.[ANGLE]) (cos halfCircle.[ANGLE]))) in
      let radial :=
        vsub (pos fresnelIntegrals (_paramsChanged Rdiv fresnelIntegrals halfCircle) 1)
          centre in
      vx radial * vx radial + vy radial * vy radial = / k * / k).
Proof.
  split; [exact halfCircle_arc |].
  exact (arc_regime_is_a_circle Rdiv fresnelIntegrals Rdiv_spec halfCircle 1
           (proj1 halfCircle_arc) (proj2 halfCircle_arc)).
Defined.

(** The Jacobian of the half circle at its start point, with the real
    quotient. *)
Lemma jacobian_curvature_rows_vanish_at_0_witness :
  let out :=
    derivativeAt Rdiv fresnelIntegrals (_paramsChanged Rdiv fresnelIntegrals halfCircle) 0 in
  out.[CURVATURE] = mkVec 0 0 /\ out.[DCURVATURE] = mkVec 0 0.
Proof.
  exact (jacobian_curvature_rows_vanish_at_0 Rdiv fresnelIntegrals Rdiv_spec halfCircle).
Defined.

Lemma small_slope : Rabs 1e-13 < 1e-12.
Proof. rewrite Rabs_right; lra. Qed.

(** The unit segment with the curvature slope 1e-13 and the curvature
    1e-7 in place of 0 and 0. *)
Lemma arc_regimes_ignore_small_parameters_witness :
  (Rabs unitSegment.[DCURVATURE] < 1e-12 /\ Rabs 1e-13 < 1e-12)
  /\ pos fresnelIntegrals
       (_paramsChanged Rdiv fresnelIntegrals (set DCURVATURE 1e-13 unitSegment)) 1
     = pos fresnelIntegrals (_paramsChanged Rdiv fresnelIntegrals unitSegment) 1
  /\ (Rabs unitSegment.[CURVATURE] < 1e-6 -> Rabs 1e-7 < 1e-6 ->
      pos fresnelIntegrals
        (_paramsChanged Rdiv fresnelIntegrals
           (set CURVATURE 1e-7 (set DCURVATURE 1e-13 unitSegment))) 1
      = pos fresnelIntegrals (_paramsChanged Rdiv fresnelIntegrals unitSegment) 1).
Proof.
  split; [split; [exact (proj1 unitSegment_flat) | exact small_slope] |].
  exact (arc_regimes_ignore_small_parameters Rdiv fresnelIntegrals Rdiv_spec
           unitSegment 1e-7 1e-13 1 (proj1 unitSegment_flat) small_slope).
Defined.

(** * The same code on the doubles

    The development above reads a [double] as a real number.  This part
    reads it as the machine does, as an IEEE 754 binary64 number with
    rounded operations, infinities and NaN, for the path a position takes
    through the class: the constructor, [_paramsChanged], [isValid] and the
    position output of [eval].  The definitions are the ones above, line
    by line, over [float]; [/] is the machine's division. *)

Module Double.

Import PrimFloat.
#[local] Set Warnings "-inexact-float".
Local Open Scope float_scope.

Record Vec : Type := mkVec { vx : float; vy : float }.
Record Mat : Type := mkMat { m00 : float; m01 : float; m10 : float; m11 : float }.

Definition vadd (a b : Vec) : Vec := mkVec (vx a + vx b) (vy a + vy b).
Definition vsub (a b : Vec) : Vec := mkVec (vx a - vx b) (vy a - vy b).
Definition mulMV (m : Mat) (v : Vec) : Vec :=
  mkVec (m00 m * vx v + m01 m * vy v) (m10 m * vx v + m11 m * vy v).

Definition Params : Type := ParamVec float.

Record Clothoid : Type := mkClothoid {
  _params : Params;
  _arc : bool;
  _flat : bool;
  _t1 : float;
  _tdiff : float;
  _mat : Mat;
  _startShift : Vec
}.

(** Modelled from the spec: the constants [PI] and [HALFPI] come from a
    header that is not part of the file; they are the doubles nearest to
    pi and to pi/2. *)
Definition PI : float := 3.14159265358979323846.
Definition HALFPI : float := 1.57079632679489661923.

(** Modelled from the spec: [CurvePrimitive::_startPos], the entries [X],
    [Y] of the parameter vector. *)
Definition _startPos (params : Params) : Vec := mkVec params.[X] params.[Y].

Section Model.

(** [cos] and [sin] of the C library, [fresnel] of Fresnel.h with its two
    outputs in the order sine integral, cosine integral, and
    [AngleUtils::toRange]: none is part of the file. *)
Variables cos sin : float -> float.
Variable fresnel : float -> float * float.
Variable toRange : float -> float.

Definition fresnelCS (t : float) : Vec := mkVec (snd (fresnel t)) (fst (fresnel t)).

Record Canonical : Type := mkCanonical {
  k_arc : bool; k_flat : bool; k_t1 : float; k_tdiff : float; k_mat : Mat; k_startcs : Vec
}.

(** Lines 46-103 of [_paramsChanged]. *)
Definition canonical (params : Params) : Canonical :=
  let arc := abs params.[DCURVATURE] <? 1e-12 in
  if arc then
    let flat := abs params.[CURVATURE] <? 1e-6 in
    if flat then
      let angle := params.[ANGLE] in
      let cosA := cos angle in
      let sinA := sin angle in
      mkCanonical arc flat 0 1 (mkMat cosA (- sinA) sinA cosA) (mkVec 0 0)
    else
      let angle := params.[ANGLE] - HALFPI in
      let cosAS := cos angle / params.[CURVATURE] in
      let sinAS := sin angle / params.[CURVATURE] in
      mkCanonical arc flat 0 params.[CURVATURE]
        (mkMat cosAS (- sinAS) sinAS cosAS) (mkVec 1 0)
  else
    let scale := sqrt (abs (1 / (PI * params.[DCURVATURE]))) in
    let t1 := params.[CURVATURE] * scale in
    let tdiff := params.[DCURVATURE] * scale in
    let mat :=
      if 0 <? tdiff then
        let angleShift := params.[ANGLE] - t1 * t1 * HALFPI in
        let cosAS := PI * scale * cos angleShift in
        let sinAS := PI * scale * sin angleShift in
        mkMat cosAS (- sinAS) sinAS cosAS
      else
        let angleShift := params.[ANGLE] + t1 * t1 * HALFPI in
        let cosAS := PI * scale * cos angleShift in
        let sinAS := PI * scale * sin angleShift in
        mkMat (- cosAS) (- sinAS) (- sinAS) cosAS in
    mkCanonical arc false t1 tdiff mat (fresnelCS t1).

Definition _paramsChanged (params : Params) : Clothoid :=
  let k := canonical params in
  mkClothoid params (k_arc k) (k_flat k) (k_t1 k) (k_tdiff k) (k_mat k)
    (vsub (_startPos params) (mulMV (k_mat k) (k_startcs k))).

(** The constructor. *)
Definition Clothoid_Clothoid (start : Vec) (startAngle length curvature endCurvature : float)
  : Clothoid :=
  _paramsChanged
    (mkPV (vx start) (vy start) (toRange startAngle) length curvature
       ((endCurvature - curvature) / length)).

Definition isValid (this : Clothoid) : bool :=
  if (_params this).[LENGTH] <? 0 then false else true.

(** [pos(s)], that is [eval(s, &p, 0, 0)]: lines 117-130. *)
Definition pos (this : Clothoid) (s : float) : Vec :=
  let t := _t1 this + s * _tdiff this in
  let cs :=
    if _flat this then mkVec t 0
    else if _arc this then mkVec (cos t) (sin t)
    else fresnelCS t in
  vadd (_startShift this) (mulMV (_mat this) cs).

End Model.

(** The unit circle entered at (0.1, 0) heading up, as a parameter vector:
    the start angle is the double [HALFPI], so that [_paramsChanged] takes
    [cos] and [sin] at [HALFPI - HALFPI], which is 0. *)
Definition unitArc : Params := mkPV 0.1 0 HALFPI 1 1 0.

(** Whatever the C library is, as long as it has cos(0) = 1 and sin(0) = 0
    (as Annex F of the C standard asks), the matrix of the unit arc is
    the identity, the translation is 0.1 - 1 rounded, and the position at
    arc length 0 is that plus 1: the double below 0.1 by two units in the
    last place. *)
Lemma pos_0_on_unit_arc (cos sin : float -> float) (fresnel : float -> float * float) :
  cos 0 = 1 -> sin 0 = 0 ->
  let this := _paramsChanged cos sin fresnel unitArc in
  _arc this = true /\ _flat this = false
  /\ _startShift this = mkVec (-0.9) 0
  /\ pos cos sin fresnel this 0 = mkVec 0.09999999999999998 0.
Proof.
  intros Hc Hs. cbv zeta.
  unfold pos, _paramsChanged, canonical, unitArc.
  cbn [get at_X at_Y at_ANGLE at_LENGTH at_CURVATURE at_DCURVATURE].
  change (abs 0 <? 1e-12) with true. change (abs 1 <? 1e-6) with false.
  cbn [k_arc k_flat k_t1 k_tdiff k_mat k_startcs _arc _flat _t1 _tdiff _mat _startShift].
  change (HALFPI - HALFPI) with 0. change (0 + 0 * 1) with 0.
  rewrite Hc, Hs.
  repeat split; reflexivity.
Qed.

(** NaN absorbs: an operation with a NaN operand returns NaN. *)
Lemma mul_nan_l (y : float) : nan * y = nan.
Proof. apply FloatAxioms.Prim2SF_inj. rewrite FloatAxioms.mul_spec. reflexivity. Qed.

Lemma mul_nan_r (y : float) : y * nan = nan.
Proof.
  apply FloatAxioms.Prim2SF_inj. rewrite FloatAxioms.mul_spec. cbn.
  destruct (FloatOps.Prim2SF y); reflexivity.
Qed.

Lemma add_nan_l (y : float) : nan + y = nan.
Proof. apply FloatAxioms.Prim2SF_inj. rewrite FloatAxioms.add_spec. reflexivity. Qed.

Lemma add_nan_r (y : float) : y + nan = nan.
Proof.
  apply FloatAxioms.Prim2SF_inj. rewrite FloatAxioms.add_spec. cbn.
  destruct (FloatOps.Prim2SF y); reflexivity.
Qed.

Lemma sub_nan_r (y : float) : y - nan = nan.
Proof.
  apply FloatAxioms.Prim2SF_inj. rewrite FloatAxioms.sub_spec. cbn.
  destruct (FloatOps.Prim2SF y); reflexivity.
Qed.

(** A number that is not infinite and not NaN, less itself, is 0. *)
Lemma sub_diag (c : float) : (abs c <? infinity) = true -> c - c = 0.
Proof.
  rewrite FloatAxioms.ltb_spec, FloatAxioms.abs_spec. intros H.
  apply FloatAxioms.Prim2SF_inj. rewrite FloatAxioms.sub_spec.
  change (FloatOps.Prim2SF 0) with (SpecFloat.S754_zero false).
  destruct (FloatOps.Prim2SF c) as [b | b | | b m e]; try discriminate H.
  - now destruct b.
  - unfold FloatAxioms.SF64sub, SpecFloat.SFsub. now rewrite BinInt.Z.sub_diag.
Qed.

(** The object the constructor builds with length 0 and the same curvature
    at both ends: the stored slope is 0/0, and every cached number that is
    computed from it is NaN. *)
Lemma zero_length_object
  (cos sin : float -> float) (fresnel : float -> float * float)
  (toRange : float -> float) (start : Vec) (startAngle curv s : float) :
  (abs curv <? infinity) = true ->
  let this := Clothoid_Clothoid cos sin fresnel toRange start startAngle 0 curv curv in
  (_params this).[DCURVATURE] = nan
  /\ isValid this = true
  /\ _arc this = false
  /\ _startShift this = mkVec nan nan
  /\ pos cos sin fresnel this s = mkVec nan nan.
Proof.
  intros Hc. cbv zeta. unfold Clothoid_Clothoid.
  rewrite (sub_diag curv Hc). change (0 / 0) with nan.
  unfold pos, isValid, _paramsChanged, canonical.
  cbv beta iota zeta delta [_params get at_X at_Y at_ANGLE at_LENGTH at_CURVATURE at_DCURVATURE].
  change (abs nan <? 1e-12) with false. change (0 <? 0) with false.
  cbv iota.
  change (sqrt (abs (1 / (PI * nan)))) with nan.
  rewrite !mul_nan_r. change (nan * nan) with nan.
  change (0 <? nan) with false.
  cbv beta iota zeta
      delta [k_arc k_flat k_t1 k_tdiff k_mat k_startcs
             _arc _flat _t1 _tdiff _mat _startShift
             vadd vsub mulMV _startPos fresnelCS vx vy m00 m01 m10 m11 get at_X at_Y].
  change (PI * nan) with nan.
  rewrite !mul_nan_l. change (- nan) with nan.
  rewrite ?mul_nan_l, ?add_nan_l, ?sub_nan_r, ?add_nan_l.
  repeat split.
Qed.

(** A zero of either sign. *)
Definition isZero (x : float) : Prop :=
  exists b : bool, FloatOps.Prim2SF x = SpecFloat.S754_zero b.

(** A number of magnitude at most 1, which is what [cos] and [sin] return
    at an angle that is a number, times 0 is a zero. *)
Lemma bounded_times_0 (c : float) : (abs c <=? 1) = true -> isZero (c * 0).
Proof.
  rewrite FloatAxioms.leb_spec, FloatAxioms.abs_spec. intros H.
  unfold isZero. rewrite FloatAxioms.mul_spec.
  change (FloatOps.Prim2SF 0) with (SpecFloat.S754_zero false).
  destruct (FloatOps.Prim2SF c) as [b | b | | b m e]; try discriminate H.
  - now exists (xorb b false).
  - now exists (xorb b false).
Qed.

Lemma abs_opp (c : float) : abs (- c) = abs c.
Proof.
  apply FloatAxioms.Prim2SF_inj.
  rewrite !FloatAxioms.abs_spec, FloatAxioms.opp_spec.
  now destruct (FloatOps.Prim2SF c).
Qed.

Lemma isZero_add (a b : float) : isZero a -> isZero b -> isZero (a + b).
Proof.
  intros [sa Ha] [sb Hb]. unfold isZero.
  rewrite FloatAxioms.add_spec, Ha, Hb.
  destruct sa, sb; cbn; eauto.
Qed.

(** Taking a zero off a number and adding a zero to it gives the number
    back, up to the sign of a zero. *)
Lemma minus_plus_zero (x z1 z2 : float) :
  isZero z1 -> isZero z2 -> (x =? x) = true -> (x - z1 + z2 =? x) = true.
Proof.
  intros [b1 H1] [b2 H2].
  rewrite !FloatAxioms.eqb_spec, FloatAxioms.add_spec, FloatAxioms.sub_spec, H1, H2.
  destruct (FloatOps.Prim2SF x) as [b | b | | b m e]; intros Hx.
  - now destruct b, b1, b2.
  - now destruct b.
  - discriminate Hx.
  - exact Hx.
Qed.

(** In the flat regime the position at arc length 0 is the start position
    on the doubles too. *)
Lemma flat_pos_0 (cos sin : float -> float) (fresnel : float -> float * float)
  (params : Params) :
  (abs params.[DCURVATURE] <? 1e-12) = true ->
  (abs params.[CURVATURE] <? 1e-6) = true ->
  (abs (cos params.[ANGLE]) <=? 1) = true ->
  (abs (sin params.[ANGLE]) <=? 1) = true ->
  (params.[X] =? params.[X]) = true ->
  (params.[Y] =? params.[Y]) = true ->
  let this := _paramsChanged cos sin fresnel params in
  _flat this = true
  /\ (vx (pos cos sin fresnel this 0) =? params.[X]) = true
  /\ (vy (pos cos sin fresnel this 0) =? params.[Y]) = true.
Proof.
  intros Hd Hk Hc Hs Hx Hy. cbv zeta.
  unfold pos, _paramsChanged, canonical. rewrite Hd, Hk.
  cbn [k_arc k_flat k_t1 k_tdiff k_mat k_startcs _arc _flat _t1 _tdiff _mat _startShift].
  change (0 + 0 * 1) with 0.
  unfold vadd, vsub, mulMV, _startPos. cbn [vx vy m00 m01 m10 m11].
  assert (Hs' : (abs (- sin params.[ANGLE]) <=? 1) = true) by now rewrite abs_opp.
  split; [reflexivity | split].
  - apply minus_plus_zero; try assumption; apply isZero_add; now apply bounded_times_0.
  - apply minus_plus_zero; try assumption; apply isZero_add; now apply bounded_times_0.
Qed.

(** Coarse stand-ins for the C library's [cos] and [sin]: the first terms
    of their series.  They are exact at 0. *)
Definition cosSeries (x : float) : float := 1 - x * x / 2.
Definition sinSeries (x : float) : float := x - x * x * x / 6.
Definition fresnelSeries (t : float) : float * float := (PI / 6 * t * t * t, t).

(** A straight segment that does not start at the origin. *)
Definition offsetSegment : Params := mkPV 0.1 0.2 0 1 0 0.

End Double.

(** ** What the doubles do *)

Section OnDoubles.

Import PrimFloat.
#[local] Set Warnings "-inexact-float".
Local Open Scope float_scope.

(** C1 as it was stated fails on the doubles: the position at arc length 0
    of the unit arc stored at (0.1, 0) is not the stored start position.
    With any C library that has cos(0) = 1 and sin(0) = 0 its x coordinate
    is 0.09999999999999998, and that is not the double 0.1. *)
Lemma pos_0_misses_start_on_unit_arc :
  Double._startPos Double.unitArc = Double.mkVec 0.1 0
  /\ (forall (cos sin : float -> float) (fresnel : float -> float * float),
        cos 0 = 1 -> sin 0 = 0 ->
        let this := Double._paramsChanged cos sin fresnel Double.unitArc in
        Double._arc this = true /\ Double._flat this = false
        /\ Double.pos cos sin fresnel this 0 = Double.mkVec 0.09999999999999998 0)
  /\ (0.09999999999999998 =? 0.1) = false
  /\ (0.09999999999999998 <? 0.1) = true.
Proof.
  split; [reflexivity | split; [| split; reflexivity]].
  intros cos sin fresnel Hc Hs.
  destruct (Double.pos_0_on_unit_arc cos sin fresnel Hc Hs) as (Ha & Hf & _ & Hp).
  repeat split; assumption.
Qed.

(** On the doubles the constructor called with length 0 and the same
    curvature at both ends, any number that is not infinite, stores NaN as
    the curvature slope; [isValid] accepts the object, and its position at
    every arc length is (NaN, NaN), whatever the start position, the start
    angle and the external functions are. *)
Theorem zero_length_positions_are_nan
  (cos sin : float -> float) (fresnel : float -> float * float)
  (toRange : float -> float) (start : Double.Vec) (startAngle curv s : float) :
  (abs curv <? infinity) = true ->
  let this :=
    Double.Clothoid_Clothoid cos sin fresnel toRange start startAngle 0 curv curv in
  (Double._params this).[DCURVATURE] = nan
  /\ Double.isValid this = true
  /\ Double.pos cos sin fresnel this s = Double.mkVec nan nan.
Proof.
  intros Hc. cbv zeta.
  destruct (Double.zero_length_object cos sin fresnel toRange start startAngle curv s Hc)
    as (Hd & Hv & _ & _ & Hp).
  repeat split; assumption.
Qed.

(** The half-way point of the object built at the origin with length 0 and
    curvature 1. *)
Lemma zero_length_positions_are_nan_witness :
  let this :=
    Double.Clothoid_Clothoid Double.cosSeries Double.sinSeries Double.fresnelSeries
      (fun a => a) (Double.mkVec 0 0) 0 0 1 1 in
  (abs 1 <? infinity) = true
  /\ (Double._params this).[DCURVATURE] = nan
  /\ Double.isValid this = true
  /\ Double.pos Double.cosSeries Double.sinSeries Double.fresnelSeries this 0.5
     = Double.mkVec nan nan.
Proof.
  cbv zeta. split; [reflexivity |].
  exact (zero_length_positions_are_nan Double.cosSeries Double.sinSeries
           Double.fresnelSeries (fun a => a) (Double.mkVec 0 0) 0 1 0.5 eq_refl).
Defined.

(** On the doubles the position at arc length 0 is the stored start
    position in the flat regime, as a comparison of numbers: for every
    parameter vector below both thresholds whose start coordinates are not
    NaN, with any C library whose [cos] and [sin] at the start angle are
    numbers of magnitude at most 1. *)
Theorem flat_pos_0_is_start_on_doubles
  (cos sin : float -> float) (fresnel : float -> float * float)
  (params : Double.Params) :
  (abs params.[DCURVATURE] <? 1e-12) = true ->
  (abs params.[CURVATURE] <? 1e-6) = true ->
  (abs (cos params.[ANGLE]) <=? 1) = true ->
  (abs (sin params.[ANGLE]) <=? 1) = true ->
  (params.[X] =? params.[X]) = true ->
  (params.[Y] =? params.[Y]) = true ->
  let this := Double._paramsChanged cos sin fresnel params in
  (Double.vx (Double.pos cos sin fresnel this 0) =? params.[X]) = true
  /\ (Double.vy (Double.pos cos sin fresnel this 0) =? params.[Y]) = true.
Proof.
  intros Hd Hk Hc Hs Hx Hy. cbv zeta.
  destruct (Double.flat_pos_0 cos sin fresnel params Hd Hk Hc Hs Hx Hy) as (_ & H1 & H2).
  split; assumption.
Qed.

Lemma flat_pos_0_is_start_on_doubles_witness :
  let cos := Double.cosSeries in
  let sin := Double.sinSeries in
  let fresnel := Double.fresnelSeries in
  let params := Double.offsetSegment in
  let this := Double._paramsChanged cos sin fresnel params in
  (abs params.[DCURVATURE] <? 1e-12) = true
  /\ (abs params.[CURVATURE] <? 1e-6) = true
  /\ (abs (cos params.[ANGLE]) <=? 1) = true
  /\ (abs (sin params.[ANGLE]) <=? 1) = true
  /\ (params.[X] =? params.[X]) = true
  /\ (params.[Y] =? params.[Y]) = true
  /\ (Double.vx (Double.pos cos sin fresnel this 0) =? params.[X]) = true
  /\ (Double.vy (Double.pos cos sin fresnel this 0) =? params.[Y]) = true.
Proof.
  cbv zeta. do 6 (split; [reflexivity |]).
  exact (flat_pos_0_is_start_on_doubles Double.cosSeries Double.sinSeries
           Double.fresnelSeries Double.offsetSegment
           eq_refl eq_refl eq_refl eq_refl eq_refl eq_refl).
Defined.

End OnDoubles.
